(** * Data preparation of the earthquake-damage notebook

    Shallow embedding of the data-preparation cell of the Random Forest
    notebook: the two [pd.read_csv] calls (limited to [N] rows), the two
    [drop("building_id", axis=1, inplace=True)] calls and the remapping loop

      for key, val in value_map.items():
          replacements = np.arange(len(val))
          val_dict = dict(zip(val, replacements))
          values[key].replace(to_replace=val_dict, inplace=True)

    A DataFrame is a list of named columns; a cell is either a string (an
    [object] column read from the CSV) or an integer. Pandas raises
    [KeyError] when a column is missing, modelled by the error result. *)

From Stdlib Require Import String List ZArith Lia Bool Permutation.
Import ListNotations.
Open Scope string_scope.

(** ** Cells, columns, frames *)

Inductive cell : Type :=
| CStr (s : string)
| CInt (z : Z).

Definition column := list cell.

(** A DataFrame: its columns in order, each with its label. *)
Definition frame := list (string * column).

Inductive error : Type :=
| KeyError (k : string).

Inductive result (A : Type) : Type :=
| Ok (a : A)
| Err (e : error).
Arguments Ok {A} a.
Arguments Err {A} e.

Notation "x <- a ;; b" :=
  (match a with Ok x => b | Err e => Err e end)
  (right associativity, at level 60).

(** ** Python dictionaries: [dict(zip(keys, values))] *)

(** A dict as its list of items in insertion order. *)
Definition pydict := list (string * Z).

(** [d[k] = v]: overwrite in place if [k] is a key, append otherwise. *)
Fixpoint dict_set (d : pydict) (k : string) (v : Z) : pydict :=
  match d with
  | [] => [(k, v)]
  | (k', v') :: r => if String.eqb k' k then (k', v) :: r else (k', v') :: dict_set r k v
  end.

Fixpoint dict_get (d : pydict) (k : string) : option Z :=
  match d with
  | [] => None
  | (k', v) :: r => if String.eqb k' k then Some v else dict_get r k
  end.

(** [dict(pairs)]: the pairs inserted from left to right. *)
Definition dict_of_pairs (pairs : list (string * Z)) : pydict :=
  fold_left (fun d '(k, v) => dict_set d k v) pairs [].

(** [np.arange(n)]. *)
Definition arange (n : nat) : list Z := map Z.of_nat (seq 0 n).

(** [val_dict = dict(zip(val, np.arange(len(val))))]. *)
Definition val_dict (val : list string) : pydict :=
  dict_of_pairs (combine val (arange (length val))).

(** ** [Series.replace(to_replace=dict)] *)

(** A cell equal to a key of the dict is replaced by its value; the keys
    are strings, so an integer cell never matches. *)
Definition replace_cell (d : pydict) (c : cell) : cell :=
  match c with
  | CStr s => match dict_get d s with Some v => CInt v | None => c end
  | CInt _ => c
  end.

Definition replace_series (d : pydict) (col : column) : column :=
  map (replace_cell d) col.

(** ** DataFrame column access *)

(** [values[key]]: the column labelled [key]. *)
Fixpoint get_column (key : string) (df : frame) : option column :=
  match df with
  | [] => None
  | (n, c) :: r => if String.eqb n key then Some c else get_column key r
  end.

(** In-place update of the column(s) labelled [key]. *)
Definition update_column (key : string) (f : column -> column) (df : frame) : frame :=
  map (fun '(n, c) => if String.eqb n key then (n, f c) else (n, c)) df.

(** [df.drop(key, axis=1, inplace=True)]: every column labelled [key] is
    removed; a label that is not a column raises [KeyError]. *)
Definition drop (key : string) (df : frame) : result frame :=
  if existsb (fun '(n, _) => String.eqb n key) df
  then Ok (filter (fun '(n, _) => negb (String.eqb n key)) df)
  else Err (KeyError key).

(** [pd.read_csv(file, header=0, delimiter=",", nrows=N)] on an already
    tokenised source (header labels with their columns): only the first
    [N] rows are read. *)
Definition read_csv (src : frame) (nrows : nat) : frame :=
  map (fun '(n, c) => (n, firstn nrows c)) src.

(** ** The configuration and the remapping loop *)

Definition value_map : list (string * list string) :=
  [ ("land_surface_condition", ["n"; "o"; "t"]);
    ("foundation_type", ["h"; "i"; "r"; "u"; "w"]);
    ("roof_type", ["n"; "q"; "x"]);
    ("ground_floor_type", ["f"; "m"; "v"; "x"; "z"]);
    ("other_floor_type", ["j"; "q"; "s"; "x"]);
    ("position", ["j"; "o"; "s"; "t"]);
    ("plan_configuration", ["a"; "c"; "d"; "f"; "m"; "n"; "o"; "q"; "s"; "u"]);
    ("legal_ownership_status", ["a"; "r"; "v"; "w"]) ].

(** The loop over [value_map.items()]; [values[key]] raises [KeyError]
    when the column is missing. *)
Fixpoint remap (vm : list (string * list string)) (values : frame) : result frame :=
  match vm with
  | [] => Ok values
  | (key, val) :: rest =>
      match get_column key values with
      | None => Err (KeyError key)
      | Some _ => remap rest (update_column key (replace_series (val_dict val)) values)
      end
  end.

(** [N = int(5e4)]. *)
Definition N : nat := 50000.

(** The whole cell, from the two sources to the pair [(values, labels)]. *)
Definition prepare (file_values file_labels : frame) : result (frame * frame) :=
  let values := read_csv file_values N in
  let labels := read_csv file_labels N in
  values <- drop "building_id" values ;;
  labels <- drop "building_id" labels ;;
  values <- remap value_map values ;;
  Ok (values, labels).

(** The notebook state touched by the cell: the configuration and the two
    frames. The remapping step acts on the [values] frame only. *)
Record nb_state := mk_state {
  st_value_map : list (string * list string);
  st_values : frame;
  st_labels : frame
}.

Definition remap_step (st : nb_state) : result nb_state :=
  values <- remap (st_value_map st) (st_values st) ;;
  Ok (mk_state (st_value_map st) values (st_labels st)).

(** ** Reference notion: position of a string in a Vocabulary *)

(** The code the spec assigns to a string: its position in the Vocabulary. *)
Fixpoint vocab_index (s : string) (vocab : list string) : option nat :=
  match vocab with
  | [] => None
  | v :: r => if String.eqb v s then Some 0 else option_map S (vocab_index s r)
  end.

(** Per-cell effect of the whole loop on a column labelled [n]. *)
Fixpoint enc_cell (vm : list (string * list string)) (n : string) (c : cell) : cell :=
  match vm with
  | [] => c
  | (k, v) :: r => enc_cell r n (if String.eqb k n then replace_cell (val_dict v) c else c)
  end.

Definition encode_frame (vm : list (string * list string)) (df : frame) : frame :=
  map (fun '(n, c) => (n, map (enc_cell vm n) c)) df.

Definition has_column (df : frame) (key : string) : bool :=
  existsb (fun '(n, _) => String.eqb n key) df.

(** ** The loop as it mutates [values] in place *)

(** Each [values[key].replace(..., inplace=True)] changes [values] at once,
    so when a later [values[key]] raises [KeyError] the columns of the
    earlier keys are already encoded. The frame as the loop leaves it, and
    the exception raised, if any. *)
Fixpoint remap_inplace (vm : list (string * list string)) (values : frame)
  : frame * option error :=
  match vm with
  | [] => (values, None)
  | (key, val) :: rest =>
      match get_column key values with
      | None => (values, Some (KeyError key))
      | Some _ => remap_inplace rest (update_column key (replace_series (val_dict val)) values)
      end
  end.

(** ** The feature-importance cell *)



(** ** The seismic-detection notebook: selecting event and noise signals

      events = (train_labels == 1)
      event_signals = train_signals[events][:5].reshape((5, -1))
      noise_signals = train_signals[~events][:5].reshape((5, -1))

    A signal is the list of its samples (the trailing axis of length 1
    added by [np.expand_dims] does not change the row-major order). *)

Inductive np_error : Type :=
| IndexError
| ValueError.

Inductive np_result (A : Type) : Type :=
| NpOk (a : A)
| NpErr (e : np_error).
Arguments NpOk {A} a.
Arguments NpErr {A} e.

(** [train_labels == 1], elementwise. *)
Definition events (labels : list Z) : list bool := map (fun y => Z.eqb y 1) labels.

(** [~mask], elementwise. *)
Definition mask_not (m : list bool) : list bool := map negb m.

(** [a[mask]] for a boolean mask along the first axis: the mask must have
    the length of that axis, else [IndexError]. *)
Definition mask_index {A : Type} (a : list A) (m : list bool) : np_result (list A) :=
  if Nat.eqb (length m) (length a)
  then NpOk (map snd (filter fst (combine m a)))
  else NpErr IndexError.

(** [n] consecutive pieces of [size] elements, in row-major order. *)
Fixpoint chunks {A : Type} (n size : nat) (l : list A) : list (list A) :=
  match n with
  | 0 => []
  | S n' => firstn size l :: chunks n' size (skipn size l)
  end.

(** [x.reshape((5, -1))]: the unknown axis is the size divided by 5, and a
    size that 5 does not divide raises [ValueError]. *)
Definition reshape_5 {A : Type} (x : list (list A)) : np_result (list (list A)) :=
  let flat := concat x in
  if Nat.eqb (length flat mod 5) 0
  then NpOk (chunks 5 (length flat / 5) flat)
  else NpErr ValueError.

(** [signals[mask][:5].reshape((5, -1))]. *)
Definition select_reshape {A : Type} (signals : list (list A)) (m : list bool)
  : np_result (list (list A)) :=
  match mask_index signals m with
  | NpOk sel => reshape_5 (firstn 5 sel)
  | NpErr e => NpErr e
  end.

(** ** The plotting grids

    [for i in range(rows): for j in range(cols): n = cols*i + j] (the seismic
    notebook with 10 by 7, [n = 7*i + j]; the digit notebook with 5 by 10,
    [n = i*10 + j]): the test examples plotted, in loop order. *)
Definition grid_indices (rows cols : nat) : list nat :=
  flat_map (fun i => map (fun j => cols * i + j) (seq 0 cols)) (seq 0 rows).

(** ** Concrete inputs *)

(** A feature source: [building_id], every configured column filled with
    the first string of its Vocabulary, [rows] rows. *)
Definition feature_source (rows : nat) : frame :=
  ("building_id", map (fun i => CInt (Z.of_nat i)) (seq 0 rows))
  :: map (fun '(k, v) => (k, repeat (CStr (hd "" v)) rows)) value_map.

(** A label source: [building_id] and [damage_grade], [rows] rows. *)
Definition label_source (rows : nat) : frame :=
  [("building_id", map (fun i => CInt (Z.of_nat i)) (seq 0 rows));
   ("damage_grade", repeat (CInt 2) rows)].

(** A two-row frame after the drop of [building_id]. *)
Definition sample_values : frame :=
  [("geo_level_1_id", [CInt 6; CInt 8]);
   ("land_surface_condition", [CStr "t"; CStr "o"]);
   ("foundation_type", [CStr "r"; CStr "w"]);
   ("roof_type", [CStr "n"; CStr "x"]);
   ("ground_floor_type", [CStr "f"; CStr "v"]);
   ("other_floor_type", [CStr "q"; CStr "j"]);
   ("position", [CStr "t"; CStr "s"]);
   ("plan_configuration", [CStr "d"; CStr "u"]);
   ("legal_ownership_status", [CStr "v"; CStr "a"])].

(** The same frame with a value outside the Vocabulary of
    [land_surface_condition]. *)
Definition unknown_values : frame :=
  update_column "land_surface_condition" (fun _ => [CStr "zz"; CStr "o"]) sample_values.

(** Number of rows of a frame: the length of its first column. *)
Definition nrows (df : frame) : nat :=
  match df with
  | (_, c) :: _ => length c
  | [] => 0
  end.

(** ** Characterisation of the remapping loop *)

Example val_dict_land : val_dict ["n"; "o"; "t"] = [("n", 0%Z); ("o", 1%Z); ("t", 2%Z)].
Proof. reflexivity. Qed.

Example enc_o : enc_cell value_map "land_surface_condition" (CStr "o") = CInt 1.
Proof. reflexivity. Qed.


Lemma get_column_has (key : string) (df : frame) :
  get_column key df = None <-> has_column df key = false.
Proof.
  induction df as [|[n c] r IH]; simpl; [tauto|].
  destruct (String.eqb n key); simpl; [split; discriminate|exact IH].
Qed.

Lemma has_column_update (k key : string) (f : column -> column) (df : frame) :
  has_column (update_column k f df) key = has_column df key.
Proof.
  induction df as [|[n c] r IH]; simpl; [reflexivity|].
  destruct (String.eqb n k); simpl; rewrite IH; reflexivity.
Qed.

Lemma encode_frame_update (k : string) (v : list string)
      (r : list (string * list string)) (df : frame) :
  encode_frame r (update_column k (replace_series (val_dict v)) df)
  = encode_frame ((k, v) :: r) df.
Proof.
  induction df as [|[n c] rest IH]; simpl; [reflexivity|].
  rewrite IH. rewrite String.eqb_sym.
  destruct (String.eqb k n); simpl; f_equal; f_equal;
    unfold replace_series; rewrite ?map_map; reflexivity.
Qed.

Lemma remap_ok_inv (vm : list (string * list string)) (df df' : frame) :
  remap vm df = Ok df' ->
  df' = encode_frame vm df /\ forallb (has_column df) (map fst vm) = true.
Proof.
  revert df. induction vm as [|[k v] r IH]; intros df H; simpl in *.
  - injection H as <-. split; [|reflexivity].
    induction df as [|[n c] rest IHd]; simpl; [reflexivity|].
    rewrite map_id, <- IHd. reflexivity.
  - destruct (get_column k df) eqn:E; [|discriminate].
    apply IH in H as [H1 H2]. subst df'.
    rewrite encode_frame_update. split; [reflexivity|].
    apply andb_true_intro; split.
    + destruct (has_column df k) eqn:Hk; [reflexivity|].
      apply get_column_has in Hk. congruence.
    + rewrite forallb_forall in *. intros x Hx.
      rewrite <- (has_column_update k x (replace_series (val_dict v))). auto.
Qed.

Lemma remap_ok (vm : list (string * list string)) (df : frame) :
  forallb (has_column df) (map fst vm) = true ->
  remap vm df = Ok (encode_frame vm df).
Proof.
  revert df. induction vm as [|[k v] r IH]; intros df H; simpl in *.
  - f_equal. induction df as [|[n c] rest IHd]; simpl; [reflexivity|].
    rewrite map_id, <- IHd. reflexivity.
  - apply andb_prop in H as [Hk Hr].
    destruct (get_column k df) eqn:E.
    + rewrite IH, encode_frame_update; [reflexivity|].
      rewrite forallb_forall in *. intros x Hx.
      rewrite has_column_update. auto.
    + apply get_column_has in E. congruence.
Qed.

(** ** The dictionary built from a Vocabulary *)

Lemma dict_get_set (d : pydict) (k s : string) (v : Z) :
  dict_get (dict_set d k v) s = if String.eqb k s then Some v else dict_get d s.
Proof.
  induction d as [|[k' v'] r IH]; simpl; [reflexivity|].
  destruct (String.eqb k' k) eqn:E; simpl.
  - apply String.eqb_eq in E; subst k'. destruct (String.eqb k s); reflexivity.
  - destruct (String.eqb k' s) eqn:E'; [|exact IH].
    apply String.eqb_eq in E'; subst k'.
    destruct (String.eqb k s) eqn:E''; [|reflexivity].
    apply String.eqb_eq in E''; subst k. rewrite String.eqb_refl in E. discriminate.
Qed.

Lemma dict_fold_absent (pairs : list (string * Z)) (acc : pydict) (s : string) :
  ~ In s (map fst pairs) ->
  dict_get (fold_left (fun d '(k, v) => dict_set d k v) pairs acc) s = dict_get acc s.
Proof.
  revert acc. induction pairs as [|[k v] r IH]; intros acc H; simpl in *; [reflexivity|].
  rewrite IH by tauto. rewrite dict_get_set.
  destruct (String.eqb k s) eqn:E; [|reflexivity].
  apply String.eqb_eq in E. tauto.
Qed.

Lemma map_fst_combine_incl (l : list string) (l' : list Z) (s : string) :
  In s (map fst (combine l l')) -> In s l.
Proof.
  rewrite in_map_iff. intros [[a b] [Ha Hin]]. simpl in Ha. subst a.
  exact (in_combine_l _ _ _ _ Hin).
Qed.

Lemma dict_fold_index (val : list string) :
  NoDup val ->
  forall k acc i s, nth_error val i = Some s ->
  dict_get (fold_left (fun d '(k, v) => dict_set d k v)
                      (combine val (map Z.of_nat (seq k (length val)))) acc) s
  = Some (Z.of_nat (k + i)).
Proof.
  induction 1 as [|a r Hna Hnd IH]; intros k acc i s Hi.
  - destruct i; discriminate.
  - simpl. destruct i as [|i]; simpl in Hi.
    + injection Hi as <-.
      rewrite dict_fold_absent.
      * rewrite dict_get_set, String.eqb_refl. f_equal. f_equal. lia.
      * intro H. apply map_fst_combine_incl in H. contradiction.
    + rewrite (IH (S k) _ i s Hi). f_equal. lia.
Qed.

Lemma val_dict_index (val : list string) (i : nat) (s : string) :
  NoDup val -> nth_error val i = Some s ->
  dict_get (val_dict val) s = Some (Z.of_nat i).
Proof.
  intros Hnd Hi. unfold val_dict, dict_of_pairs, arange.
  rewrite (dict_fold_index val Hnd 0 [] i s Hi). reflexivity.
Qed.

Lemma val_dict_absent (val : list string) (s : string) :
  ~ In s val -> dict_get (val_dict val) s = None.
Proof.
  intros H. unfold val_dict, dict_of_pairs.
  rewrite dict_fold_absent; [reflexivity|].
  intro H'. apply map_fst_combine_incl in H'. contradiction.
Qed.

Lemma vocab_index_nth (vocab : list string) (i : nat) (s : string) :
  NoDup vocab -> nth_error vocab i = Some s -> vocab_index s vocab = Some i.
Proof.
  intros Hnd. revert i. induction Hnd as [|a r Hna Hnd IH]; intros i Hi.
  - destruct i; discriminate.
  - simpl. destruct i as [|i]; simpl in Hi.
    + injection Hi as <-. rewrite String.eqb_refl. reflexivity.
    + destruct (String.eqb a s) eqn:E.
      * apply String.eqb_eq in E; subst a. apply nth_error_In in Hi. contradiction.
      * rewrite (IH i Hi). reflexivity.
Qed.

(** ** The loop acts on a column through its own Vocabulary only *)

Lemma enc_cell_absent (vm : list (string * list string)) (n : string) (c : cell) :
  ~ In n (map fst vm) -> enc_cell vm n c = c.
Proof.
  revert c. induction vm as [|[k v] r IH]; intros c H; simpl in *; [reflexivity|].
  destruct (String.eqb k n) eqn:E.
  - apply String.eqb_eq in E. tauto.
  - apply IH. tauto.
Qed.

Lemma enc_cell_single (vm : list (string * list string)) (n : string)
      (v : list string) (c : cell) :
  NoDup (map fst vm) -> In (n, v) vm -> enc_cell vm n c = replace_cell (val_dict v) c.
Proof.
  revert c. induction vm as [|[k v'] r IH]; intros c Hnd Hin; simpl in *; [contradiction|].
  inversion Hnd as [|? ? Hk Hr]; subst.
  destruct Hin as [Heq|Hin].
  - injection Heq as -> ->. rewrite String.eqb_refl. apply enc_cell_absent. exact Hk.
  - destruct (String.eqb k n) eqn:E.
    + apply String.eqb_eq in E; subst k.
      exfalso. apply Hk. apply (in_map fst) in Hin. exact Hin.
    + apply IH; assumption.
Qed.

Fixpoint nodupb (l : list string) : bool :=
  match l with
  | [] => true
  | a :: r => negb (existsb (String.eqb a) r) && nodupb r
  end.

Lemma nodupb_NoDup (l : list string) : nodupb l = true -> NoDup l.
Proof.
  induction l as [|a r IH]; simpl; intros H; constructor.
  - apply andb_prop in H as [H _]. intro Hin.
    apply negb_true_iff in H. rewrite <- not_true_iff_false in H. apply H.
    apply existsb_exists. exists a. split; [exact Hin|apply String.eqb_refl].
  - apply IH. apply andb_prop in H. tauto.
Qed.

Lemma value_map_keys_NoDup : NoDup (map fst value_map).
Proof. apply nodupb_NoDup. vm_compute. reflexivity. Qed.

Lemma value_map_vocab_NoDup (key : string) (vocab : list string) :
  In (key, vocab) value_map -> NoDup vocab.
Proof.
  intros H. apply nodupb_NoDup.
  repeat (destruct H as [H|H]; [injection H as <- <-; vm_compute; reflexivity|]).
  contradiction.
Qed.

(** ** Frame-level facts *)

Lemma nth_error_encode_frame (vm : list (string * list string)) (df : frame)
      (j : nat) (n : string) (c : column) :
  nth_error df j = Some (n, c) ->
  nth_error (encode_frame vm df) j = Some (n, map (enc_cell vm n) c).
Proof.
  intros H. unfold encode_frame. unfold frame, column in *. rewrite nth_error_map, H. reflexivity.
Qed.

Lemma encode_frame_names (vm : list (string * list string)) (df : frame) :
  map fst (encode_frame vm df) = map fst df.
Proof.
  unfold encode_frame. rewrite map_map.
  apply map_ext. intros [n c]. reflexivity.
Qed.

Lemma has_column_In (df : frame) (key : string) :
  has_column df key = true <-> In key (map fst df).
Proof.
  unfold has_column. rewrite existsb_exists. split.
  - intros [[n c] [Hin Heq]]. apply String.eqb_eq in Heq. subst n.
    apply (in_map fst) in Hin. exact Hin.
  - intros Hin. apply in_map_iff in Hin as [[n c] [Hn Hin]]. simpl in Hn. subst n.
    exists (key, c). split; [exact Hin|apply String.eqb_refl].
Qed.

Lemma has_column_names (df df' : frame) (key : string) :
  map fst df' = map fst df -> has_column df' key = has_column df key.
Proof.
  intros H. destruct (has_column df key) eqn:E.
  - apply has_column_In. rewrite H. apply has_column_In. exact E.
  - apply not_true_iff_false. rewrite has_column_In, H, <- has_column_In.
    rewrite E. discriminate.
Qed.

Lemma nth_error_map_cell (f : cell -> cell) (c : column) (i : nat) (x : cell) :
  nth_error c i = Some x -> nth_error (map f c) i = Some (f x).
Proof. intros H. rewrite nth_error_map, H. reflexivity. Qed.

(** ** The per-cell effect never turns an integer back, nor a string into
    another string *)

Lemma enc_cell_int (vm : list (string * list string)) (n : string) (z : Z) :
  enc_cell vm n (CInt z) = CInt z.
Proof.
  induction vm as [|[k v] r IH]; simpl; [reflexivity|].
  destruct (String.eqb k n); exact IH.
Qed.

Lemma enc_cell_str (vm : list (string * list string)) (n : string) (c : cell) (s : string) :
  enc_cell vm n c = CStr s -> c = CStr s.
Proof.
  revert c. induction vm as [|[k v] r IH]; intros c H; simpl in *; [exact H|].
  apply IH in H. destruct (String.eqb k n); [|exact H].
  destruct c as [s'|z]; simpl in H; [|exact H].
  destruct (dict_get (val_dict v) s'); [discriminate|exact H].
Qed.

Lemma enc_cell_idem (vm : list (string * list string)) (n : string) (c : cell) :
  enc_cell vm n (enc_cell vm n c) = enc_cell vm n c.
Proof.
  destruct (enc_cell vm n c) as [s|z] eqn:E.
  - apply enc_cell_str in E as E'. subst c. exact E.
  - apply enc_cell_int.
Qed.

Lemma value_map_not_building_id : ~ In "building_id" (map fst value_map).
Proof. simpl. intuition discriminate. Qed.

Lemma read_csv_names (src : frame) (n : nat) : map fst (read_csv src n) = map fst src.
Proof.
  unfold read_csv. rewrite map_map. apply map_ext. intros [k c]. reflexivity.
Qed.

Lemma drop_ok (key : string) (df df' : frame) :
  drop key df = Ok df' -> ~ In key (map fst df').
Proof.
  unfold drop. destruct existsb; [|discriminate]. intros H. injection H as <-.
  intros Hin. apply in_map_iff in Hin as [[n c] [Hn Hin]]. simpl in Hn. subst n.
  apply filter_In in Hin as [_ Hb]. rewrite String.eqb_refl in Hb. discriminate.
Qed.

Lemma drop_names (key k : string) (df df' : frame) :
  drop key df = Ok df' -> k <> key -> In k (map fst df) -> In k (map fst df').
Proof.
  unfold drop. destruct existsb; [|discriminate]. intros H Hne Hin. injection H as <-.
  apply in_map_iff in Hin as [[n c] [Hn Hin]]. simpl in Hn. subst n.
  apply (in_map fst (filter _ df) (k, c)). apply filter_In. split; [exact Hin|].
  destruct (String.eqb k key) eqn:E; [apply String.eqb_eq in E; contradiction|reflexivity].
Qed.

(** * Claims *)

(** ** C1: a known value is encoded as its position in the Vocabulary *)

(** C1: every string of a configured column found in the column's
    Vocabulary is replaced by its position in the Vocabulary, from which
    the Vocabulary gives the string back; "o" in [land_surface_condition]
    (Vocabulary ["n";"o";"t"]) becomes 1. *)
Theorem remap_encodes_vocab_index :
  (forall (df df' : frame) (j : nat) (key : string) (vocab : list string)
          (col : column) (i : nat) (s : string),
     remap value_map df = Ok df' ->
     In (key, vocab) value_map ->
     nth_error df j = Some (key, col) ->
     nth_error col i = Some (CStr s) ->
     In s vocab ->
     exists col' code,
       nth_error df' j = Some (key, col') /\
       vocab_index s vocab = Some code /\
       nth_error col' i = Some (CInt (Z.of_nat code)) /\
       nth_error vocab code = Some s)
  /\ (forall df df', remap value_map df = Ok df' ->
      forall j col, nth_error df j = Some ("land_surface_condition", col) ->
      forall i, nth_error col i = Some (CStr "o") ->
      exists col', nth_error df' j = Some ("land_surface_condition", col') /\
                   nth_error col' i = Some (CInt 1)).
Proof.
  assert (Hgen : forall (df df' : frame) (j : nat) (key : string) (vocab : list string)
          (col : column) (i : nat) (s : string),
     remap value_map df = Ok df' ->
     In (key, vocab) value_map ->
     nth_error df j = Some (key, col) ->
     nth_error col i = Some (CStr s) ->
     In s vocab ->
     exists col' code,
       nth_error df' j = Some (key, col') /\
       vocab_index s vocab = Some code /\
       nth_error col' i = Some (CInt (Z.of_nat code)) /\
       nth_error vocab code = Some s).
  { intros df df' j key vocab col i s Hr Hv Hj Hi Hs.
    apply remap_ok_inv in Hr as [-> _].
    apply In_nth_error in Hs as [code Hcode].
    pose proof (value_map_vocab_NoDup key vocab Hv) as Hnd.
    exists (map (enc_cell value_map key) col), code. split; [|split; [|split]].
    - apply nth_error_encode_frame. exact Hj.
    - apply vocab_index_nth; assumption.
    - apply nth_error_map_cell with (f := enc_cell value_map key) in Hi. rewrite Hi.
      rewrite (enc_cell_single value_map key vocab _ value_map_keys_NoDup Hv). simpl.
      rewrite (val_dict_index vocab code s Hnd Hcode). reflexivity.
    - exact Hcode. }
  split; [exact Hgen|].
  intros df df' Hr j col Hj i Hi.
  destruct (Hgen df df' j "land_surface_condition" ["n"; "o"; "t"] col i "o"
              Hr (or_introl eq_refl) Hj Hi (or_intror (or_introl eq_refl)))
    as [col' [code [H1 [H2 [H3 _]]]]].
  exists col'. split; [exact H1|]. simpl in H2. injection H2 as <-. exact H3.
Qed.

(** C1, at the second row of [sample_values]: "o" becomes 1. *)
Lemma remap_encodes_vocab_index_witness :
  exists col' code,
    nth_error (encode_frame value_map sample_values) 1 = Some ("land_surface_condition", col') /\
    vocab_index "o" ["n"; "o"; "t"] = Some code /\
    nth_error col' 1 = Some (CInt (Z.of_nat code)) /\
    nth_error ["n"; "o"; "t"] code = Some "o".
Proof.
  apply (proj1 remap_encodes_vocab_index sample_values (encode_frame value_map sample_values)
           1 "land_surface_condition" ["n"; "o"; "t"] [CStr "t"; CStr "o"] 1 "o").
  - vm_compute. reflexivity.
  - left. reflexivity.
  - reflexivity.
  - reflexivity.
  - right. left. reflexivity.
Defined.

(** ** C2: an unknown value does not make the encoding fail *)

(** C2 (as stated, refuted): [unknown_values] holds "zz", outside the
    Vocabulary of [land_surface_condition], and the loop still returns a
    frame, with "zz" left in place. *)
Lemma remap_unknown_passes_through :
  exists df', remap value_map unknown_values = Ok df' /\
              get_column "land_surface_condition" df' = Some [CStr "zz"; CInt 1].
Proof.
  eexists. split; [vm_compute; reflexivity|]. vm_compute. reflexivity.
Qed.

(** C2 (amended): the loop fails only on a missing configured column;
    when every configured column is present it returns a frame, and a
    string of a configured column outside the column's Vocabulary is left
    in place unchanged. *)
Theorem remap_keeps_unknown :
  (forall df : frame,
     (forall key, In key (map fst value_map) -> In key (map fst df)) ->
     exists df', remap value_map df = Ok df')
  /\ (forall (df df' : frame) (j : nat) (key : string) (vocab : list string)
             (col : column) (i : nat) (s : string),
        remap value_map df = Ok df' ->
        In (key, vocab) value_map ->
        nth_error df j = Some (key, col) ->
        nth_error col i = Some (CStr s) ->
        ~ In s vocab ->
        exists col', nth_error df' j = Some (key, col') /\
                     nth_error col' i = Some (CStr s)).
Proof.
  split.
  - intros df H. exists (encode_frame value_map df). apply remap_ok.
    apply forallb_forall. intros key Hk. apply has_column_In. auto.
  - intros df df' j key vocab col i s Hr Hv Hj Hi Hs.
    apply remap_ok_inv in Hr as [-> _].
    exists (map (enc_cell value_map key) col). split.
    + apply nth_error_encode_frame. exact Hj.
    + apply nth_error_map_cell with (f := enc_cell value_map key) in Hi. rewrite Hi.
      rewrite (enc_cell_single value_map key vocab _ value_map_keys_NoDup Hv). simpl.
      rewrite (val_dict_absent vocab s Hs). reflexivity.
Qed.

(** C2, at [unknown_values]: the frame is returned and "zz" stays. *)
Lemma remap_keeps_unknown_witness :
  (exists df', remap value_map unknown_values = Ok df') /\
  (exists col', nth_error (encode_frame value_map unknown_values) 1
                = Some ("land_surface_condition", col') /\
                nth_error col' 0 = Some (CStr "zz")).
Proof.
  split.
  - apply (proj1 remap_keeps_unknown unknown_values).
    intros key Hk. vm_compute in Hk. vm_compute.
    repeat (destruct Hk as [<-|Hk]; [tauto|]). contradiction.
  - apply (proj2 remap_keeps_unknown unknown_values (encode_frame value_map unknown_values)
             1 "land_surface_condition" ["n"; "o"; "t"] [CStr "zz"; CStr "o"] 0 "zz").
    + vm_compute. reflexivity.
    + left. reflexivity.
    + reflexivity.
    + reflexivity.
    + simpl. intuition discriminate.
Defined.

(** ** C6: the identifier column is dropped from both frames *)

Lemma drop_present (key : string) (df : frame) :
  In key (map fst df) -> drop key df = Ok (filter (fun '(n, _) => negb (String.eqb n key)) df).
Proof.
  intros H. apply has_column_In in H. unfold drop. unfold has_column in H. rewrite H.
  reflexivity.
Qed.

Lemma drop_names_rev (key k : string) (df df' : frame) :
  drop key df = Ok df' -> In k (map fst df') -> In k (map fst df).
Proof.
  unfold drop. destruct existsb; [|discriminate]. intros H Hin. injection H as <-.
  apply in_map_iff in Hin as [[n c] [Hn Hin]]. simpl in Hn. subst n.
  apply filter_In in Hin as [Hin _]. apply (in_map fst) in Hin. exact Hin.
Qed.

(** C6: whenever the preparation cell succeeds, neither the encoded
    feature frame nor the label frame has a [building_id] column. *)
Theorem prepare_drops_building_id (file_values file_labels values labels : frame) :
  prepare file_values file_labels = Ok (values, labels) ->
  ~ In "building_id" (map fst values) /\ ~ In "building_id" (map fst labels).
Proof.
  unfold prepare.
  destruct (drop "building_id" (read_csv file_values N)) as [v0|e] eqn:E1; [|discriminate].
  destruct (drop "building_id" (read_csv file_labels N)) as [l0|e] eqn:E2; [|discriminate].
  destruct (remap value_map v0) as [v1|e] eqn:E3; [|discriminate].
  intros H. injection H as <- <-. split.
  - apply remap_ok_inv in E3 as [-> _]. rewrite encode_frame_names.
    exact (drop_ok _ _ _ E1).
  - exact (drop_ok _ _ _ E2).
Qed.

(** C6, on three-row sources. *)
Lemma prepare_drops_building_id_witness :
  exists values labels,
    prepare (feature_source 3) (label_source 3) = Ok (values, labels) /\
    ~ In "building_id" (map fst values) /\ ~ In "building_id" (map fst labels).
Proof.
  do 2 eexists.
  refine (conj ?[E] (prepare_drops_building_id (feature_source 3) (label_source 3) _ _ ?E)).
  cbv. reflexivity.
Defined.

(** ** C7: no row-count check in the loader *)

(** C7 (as stated, refuted): a feature source of 50 rows and a label
    source of 49 rows are loaded without error. *)
Lemma prepare_accepts_mismatched_rows :
  nrows (feature_source 50) = 50 /\ nrows (label_source 49) = 49 /\
  match prepare (feature_source 50) (label_source 49) with
  | Ok _ => True
  | Err _ => False
  end.
Proof. vm_compute. repeat split. Qed.

(** C7 (amended): the loader never compares row counts: when both sources
    have [building_id] and the feature source has every configured column,
    it succeeds; it fails when a configured column is absent from the
    feature source. *)
Theorem prepare_schema :
  (forall file_values file_labels : frame,
     In "building_id" (map fst file_values) ->
     In "building_id" (map fst file_labels) ->
     (forall key, In key (map fst value_map) -> In key (map fst file_values)) ->
     exists values labels, prepare file_values file_labels = Ok (values, labels))
  /\ (forall (file_values file_labels : frame) (key : string),
        In key (map fst value_map) -> ~ In key (map fst file_values) ->
        exists e, prepare file_values file_labels = Err e).
Proof.
  split.
  - intros fv fl Hv Hl Hk. unfold prepare.
    rewrite drop_present by (rewrite read_csv_names; exact Hv).
    rewrite drop_present by (rewrite read_csv_names; exact Hl).
    rewrite remap_ok; [eexists; eexists; reflexivity|].
    apply forallb_forall. intros key Hkey. apply has_column_In.
    apply (drop_names "building_id" key (read_csv fv N)).
    + apply drop_present. rewrite read_csv_names. exact Hv.
    + intros ->. exact (value_map_not_building_id Hkey).
    + rewrite read_csv_names. auto.
  - intros fv fl key Hkey Habs. unfold prepare.
    destruct (drop "building_id" (read_csv fv N)) as [v0|e] eqn:E1; [|eauto].
    destruct (drop "building_id" (read_csv fl N)) as [l0|e] eqn:E2; [|eauto].
    destruct (remap value_map v0) as [v1|e] eqn:E3; [|eauto].
    exfalso. apply remap_ok_inv in E3 as [_ Hall].
    rewrite forallb_forall in Hall. apply Hall, has_column_In in Hkey.
    apply (drop_names_rev _ _ _ _ E1) in Hkey. rewrite read_csv_names in Hkey.
    contradiction.
Qed.

(** C7, at 50 feature rows and 49 label rows, and at a feature source
    without [roof_type]. *)
Lemma prepare_schema_witness :
  (exists values labels, prepare (feature_source 50) (label_source 49) = Ok (values, labels))
  /\ (exists e, prepare (label_source 3) (label_source 3) = Err e).
Proof.
  split.
  - apply (proj1 prepare_schema).
    + simpl. left. reflexivity.
    + simpl. left. reflexivity.
    + intros key Hk. simpl. simpl in Hk. tauto.
  - apply (proj2 prepare_schema (label_source 3) (label_source 3) "roof_type").
    + simpl. tauto.
    + simpl. intuition discriminate.
Defined.

(** ** C9: frame effect of the remapping step *)

(** C9: the remapping step leaves the configuration and the label frame
    as they were, keeps the column labels, and leaves every column whose
    label is not a key of the configuration unchanged. *)
Theorem remap_step_frame (st st' : nb_state) :
  remap_step st = Ok st' ->
  st_value_map st' = st_value_map st /\
  st_labels st' = st_labels st /\
  map fst (st_values st') = map fst (st_values st) /\
  (forall j n c, nth_error (st_values st) j = Some (n, c) ->
                 ~ In n (map fst (st_value_map st)) ->
                 nth_error (st_values st') j = Some (n, c)).
Proof.
  destruct st as [vm values labels]. unfold remap_step. simpl.
  destruct (remap vm values) as [v'|e] eqn:E; [|discriminate].
  intros H. injection H as <-. simpl.
  apply remap_ok_inv in E as [-> _].
  split; [reflexivity|]. split; [reflexivity|]. split; [apply encode_frame_names|].
  intros j n c Hj Hn. rewrite (nth_error_encode_frame vm values j n c Hj).
  f_equal. f_equal. rewrite <- (map_id c) at 2. apply map_ext.
  intros x. apply enc_cell_absent. exact Hn.
Qed.

(** C9, at [sample_values]: [geo_level_1_id] is not configured. *)
Lemma remap_step_frame_witness :
  let st := mk_state value_map sample_values (label_source 2) in
  let st' := mk_state value_map (encode_frame value_map sample_values) (label_source 2) in
  st_value_map st' = st_value_map st /\
  st_labels st' = st_labels st /\
  map fst (st_values st') = map fst (st_values st) /\
  (forall j n c, nth_error (st_values st) j = Some (n, c) ->
                 ~ In n (map fst (st_value_map st)) ->
                 nth_error (st_values st') j = Some (n, c)).
Proof.
  intros st st'. apply (remap_step_frame st st'). vm_compute. reflexivity.
Defined.

(** ** C10: the remapping loop is idempotent *)

(** C10: running the loop again on its own output returns that output:
    encoded cells are integers, which no string key matches, and a string
    the loop left in place is one that none of its dictionaries has. *)
Theorem remap_idempotent (vm : list (string * list string)) (df df' : frame) :
  remap vm df = Ok df' -> remap vm df' = Ok df'.
Proof.
  intros H. apply remap_ok_inv in H as [-> Hall].
  rewrite remap_ok.
  - f_equal. unfold encode_frame. rewrite map_map. apply map_ext.
    intros [n c]. rewrite map_map. f_equal. apply map_ext. apply enc_cell_idem.
  - rewrite forallb_forall in *. intros key Hk.
    rewrite (has_column_names df); [auto|apply encode_frame_names].
Qed.

(** C10, at [sample_values]. *)
Lemma remap_idempotent_witness :
  remap value_map (encode_frame value_map sample_values) = Ok (encode_frame value_map sample_values).
Proof.
  apply (remap_idempotent value_map sample_values). vm_compute. reflexivity.
Defined.

(** * Further properties of the notebooks *)

(** ** Helpers *)

Lemma get_column_In (key : string) (df : frame) :
  get_column key df <> None <-> In key (map fst df).
Proof.
  rewrite <- has_column_In. split.
  - intros H. destruct (has_column df key) eqn:E; [reflexivity|].
    apply get_column_has in E. contradiction.
  - intros H E. apply get_column_has in E. congruence.
Qed.

Lemma update_column_names (k : string) (f : column -> column) (df : frame) :
  map fst (update_column k f df) = map fst df.
Proof.
  induction df as [|[n c] r IH]; simpl; [reflexivity|].
  destruct (String.eqb n k); simpl; rewrite IH; reflexivity.
Qed.

Lemma encode_frame_nil (df : frame) : encode_frame [] df = df.
Proof.
  induction df as [|[n c] r IH]; simpl; [reflexivity|].
  rewrite map_id. f_equal. exact IH.
Qed.

Lemma drop_err (key : string) (df : frame) (e : error) :
  drop key df = Err e -> ~ In key (map fst df).
Proof.
  unfold drop. intros H Hin. apply has_column_In in Hin. unfold has_column in Hin.
  rewrite Hin in H. discriminate.
Qed.

(** The loop without and with its in-place effect agree. *)
Lemma remap_inplace_remap (vm : list (string * list string)) (df : frame) :
  remap vm df = match remap_inplace vm df with
                | (df', None) => Ok df'
                | (_, Some e) => Err e
                end.
Proof.
  revert df. induction vm as [|[k v] r IH]; intros df; simpl; [reflexivity|].
  destruct (get_column k df); [apply IH|reflexivity].
Qed.

(** ** The in-place loop leaves a half-encoded frame on [KeyError] *)

(** X1: when [values[key]] raises [KeyError] for the configured key [k],
    [k] is the first key of the loop that is not a column, and the frame
    is left with the columns of every earlier key already encoded. *)
Theorem remap_inplace_keyerror (vm : list (string * list string)) (df df' : frame) (k : string) :
  remap_inplace vm df = (df', Some (KeyError k)) ->
  exists pre v post,
    vm = (pre ++ (k, v) :: post)%list /\
    ~ In k (map fst df) /\
    (forall k', In k' (map fst pre) -> In k' (map fst df)) /\
    df' = encode_frame pre df.
Proof.
  revert df. induction vm as [|[k0 v0] r IH]; intros df H; simpl in H; [discriminate|].
  destruct (get_column k0 df) eqn:E.
  - apply IH in H as [pre [v [post [Hvm [Hk [Hpre Hdf]]]]]].
    rewrite update_column_names in Hk, Hpre.
    exists ((k0, v0) :: pre), v, post. split; [rewrite Hvm; reflexivity|].
    split; [exact Hk|]. split.
    + intros k' [<-|Hk']; [|auto]. apply get_column_In. simpl. congruence.
    + rewrite Hdf. apply encode_frame_update.
  - injection H as <- <-. exists [], v0, r. split; [reflexivity|].
    split; [intros Hin; apply get_column_In in Hin; contradiction|]. split; [contradiction|].
    symmetry. apply encode_frame_nil.
Qed.

(** X1, on a frame without [foundation_type]: [land_surface_condition] is
    already encoded when the loop stops. *)
Lemma remap_inplace_keyerror_witness :
  exists pre v post,
    value_map = (pre ++ ("foundation_type", v) :: post)%list /\
    ~ In "foundation_type" (map fst (label_source 1 ++ [("land_surface_condition", [CStr "t"])])%list) /\
    (forall k', In k' (map fst pre) ->
       In k' (map fst (label_source 1 ++ [("land_surface_condition", [CStr "t"])])%list)) /\
    [("building_id", [CInt 0]); ("damage_grade", [CInt 2]); ("land_surface_condition", [CInt 2])]
    = encode_frame pre (label_source 1 ++ [("land_surface_condition", [CStr "t"])])%list.
Proof.
  apply (remap_inplace_keyerror value_map
           (label_source 1 ++ [("land_surface_condition", [CStr "t"])])%list).
  vm_compute. reflexivity.
Defined.

(** ** The loop reports the first configured column that is missing *)

(** X2: the remapping loop fails exactly with [KeyError] of the first key
    of [value_map], in iteration order, that is not a column of the frame. *)
Theorem remap_error_first_missing (vm : list (string * list string)) (df : frame) (e : error) :
  remap vm df = Err e ->
  exists pre k v post,
    vm = (pre ++ (k, v) :: post)%list /\ e = KeyError k /\
    ~ In k (map fst df) /\
    (forall k', In k' (map fst pre) -> In k' (map fst df)).
Proof.
  rewrite remap_inplace_remap.
  destruct (remap_inplace vm df) as [df' [[k]|]] eqn:E; intros H; [|discriminate].
  injection H as <-.
  apply remap_inplace_keyerror in E as [pre [v [post [H1 [H2 [H3 _]]]]]].
  exists pre, k, v, post. auto.
Qed.

(** X2, on a frame that has only [land_surface_condition]. *)
Lemma remap_error_first_missing_witness :
  exists pre k v post,
    value_map = (pre ++ (k, v) :: post)%list /\ KeyError "foundation_type" = KeyError k /\
    ~ In k (map fst [("land_surface_condition", [CStr "o"])]) /\
    (forall k', In k' (map fst pre) -> In k' (map fst [("land_surface_condition", [CStr "o"])])).
Proof.
  apply (remap_error_first_missing value_map [("land_surface_condition", [CStr "o"])]).
  vm_compute. reflexivity.
Defined.

(** ** What the preparation cell returns *)


(** X3: the preparation cell fails exactly when [building_id] is missing
    from one of the two sources or a configured column is missing from the
    feature source. *)
Theorem prepare_fails_iff (fv fl : frame) :
  (exists e, prepare fv fl = Err e) <->
  ~ In "building_id" (map fst fv) \/ ~ In "building_id" (map fst fl) \/
  (exists key, In key (map fst value_map) /\ ~ In key (map fst fv)).
Proof.
  split.
  - intros [e He]. unfold prepare in He.
    destruct (drop "building_id" (read_csv fv N)) as [v0|e1] eqn:E1.
    2:{ left. rewrite <- (read_csv_names fv N). exact (drop_err _ _ _ E1). }
    destruct (drop "building_id" (read_csv fl N)) as [l0|e2] eqn:E2.
    2:{ right; left. rewrite <- (read_csv_names fl N). exact (drop_err _ _ _ E2). }
    destruct (remap value_map v0) as [v1|e3] eqn:E3; [discriminate|].
    right; right.
    apply remap_error_first_missing in E3 as [pre [k [v [post [Hvm [_ [Hk _]]]]]]].
    exists k. split.
    + rewrite Hvm, map_app. apply in_or_app. right. left. reflexivity.
    + intros Hin. apply Hk. apply (drop_names "building_id" k (read_csv fv N)); [exact E1| |].
      * intros ->. apply value_map_not_building_id.
        rewrite Hvm, map_app. apply in_or_app. right. left. reflexivity.
      * rewrite read_csv_names. exact Hin.
  - intros H. unfold prepare.
    destruct (drop "building_id" (read_csv fv N)) as [v0|e1] eqn:E1; [|eauto].
    destruct (drop "building_id" (read_csv fl N)) as [l0|e2] eqn:E2; [|eauto].
    destruct (remap value_map v0) as [v1|e3] eqn:E3; [|eauto].
    exfalso. destruct H as [H|[H|[key [Hkey H]]]].
    + unfold drop in E1. destruct existsb eqn:Ex in E1; [|discriminate].
      apply H. rewrite <- (read_csv_names fv N). apply has_column_In. exact Ex.
    + unfold drop in E2. destruct existsb eqn:Ex in E2; [|discriminate].
      apply H. rewrite <- (read_csv_names fl N). apply has_column_In. exact Ex.
    + apply remap_ok_inv in E3 as [_ Hall].
      rewrite forallb_forall in Hall. apply Hall, has_column_In in Hkey.
      apply (drop_names_rev _ _ _ _ E1) in Hkey. rewrite read_csv_names in Hkey.
      contradiction.
Qed.







(** ** Range of the codes *)

Lemma dict_fold_values (P : Z -> Prop) (pairs : list (string * Z)) (acc : pydict)
      (s : string) (z : Z) :
  (forall k x, dict_get acc k = Some x -> P x) ->
  (forall p, In p pairs -> P (snd p)) ->
  dict_get (fold_left (fun d '(k, v) => dict_set d k v) pairs acc) s = Some z -> P z.
Proof.
  revert acc. induction pairs as [|[k v] r IH]; intros acc Hacc Hp H; simpl in *.
  - exact (Hacc _ _ H).
  - apply (IH (dict_set acc k v)); [|auto|exact H].
    intros k' x Hx. rewrite dict_get_set in Hx.
    destruct (String.eqb k k'); [injection Hx as <-; apply (Hp (k, v)); auto|eauto].
Qed.

Lemma val_dict_range (val : list string) (s : string) (z : Z) :
  dict_get (val_dict val) s = Some z -> (0 <= z < Z.of_nat (length val))%Z.
Proof.
  unfold val_dict, dict_of_pairs.
  apply (dict_fold_values (fun x => (0 <= x < Z.of_nat (length val))%Z)).
  - intros k x H. discriminate.
  - intros [k v] Hin. simpl. apply in_combine_r in Hin. unfold arange in Hin.
    apply in_map_iff in Hin as [m [<- Hm]]. apply in_seq in Hm. lia.
Qed.

Lemma nth_error_map_inv (f : cell -> cell) (c : column) (i : nat) (y : cell) :
  nth_error (map f c) i = Some y -> exists x, nth_error c i = Some x /\ f x = y.
Proof.
  revert i. induction c as [|a r IH]; intros [|i] H; simpl in H; try discriminate.
  - injection H as <-. exists a. split; reflexivity.
  - exact (IH i H).
Qed.

(** X7: in a configured column of the encoded frame, every integer is
    either an integer the source already had at that place or a code
    between 0 and the size of the column's Vocabulary minus 1. *)
Theorem remap_code_range (df df' : frame) (j : nat) (key : string) (vocab : list string)
      (col col' : column) (i : nat) (z : Z) :
  remap value_map df = Ok df' ->
  In (key, vocab) value_map ->
  nth_error df j = Some (key, col) ->
  nth_error df' j = Some (key, col') ->
  nth_error col' i = Some (CInt z) ->
  nth_error col i = Some (CInt z) \/ (0 <= z < Z.of_nat (length vocab))%Z.
Proof.
  intros Hr Hv Hj Hj' Hi. apply remap_ok_inv in Hr as [-> _].
  rewrite (nth_error_encode_frame value_map df j key col Hj) in Hj'.
  assert (Hc : col' = map (enc_cell value_map key) col) by congruence. subst col'.
  apply nth_error_map_inv in Hi as [x [Hx0 Hx]]. rewrite Hx0.
  rewrite (enc_cell_single value_map key vocab _ value_map_keys_NoDup Hv) in Hx.
  destruct x as [s|z']; simpl in Hx.
  - right. destruct (dict_get (val_dict vocab) s) eqn:E; [|discriminate].
    injection Hx as ->. exact (val_dict_range _ _ _ E).
  - left. rewrite Hx. reflexivity.
Qed.

(** X7, at [sample_values]: [plan_configuration] "u" becomes 9, below 10. *)
Lemma remap_code_range_witness :
  nth_error [CStr "d"; CStr "u"] 1 = Some (CInt 9) \/ (0 <= 9 < Z.of_nat 10)%Z.
Proof.
  apply (remap_code_range sample_values (encode_frame value_map sample_values) 7
           "plan_configuration" ["a"; "c"; "d"; "f"; "m"; "n"; "o"; "q"; "s"; "u"]
           [CStr "d"; CStr "u"] [CInt 2; CInt 9] 1 9).
  - vm_compute. reflexivity.
  - simpl. tauto.
  - reflexivity.
  - vm_compute. reflexivity.
  - reflexivity.
Defined.

(** ** Event and noise signals in the seismic notebook *)

Section Signals.
Local Open Scope list_scope.
Context {A : Type}.

Lemma mask_partition {B : Type} (m : list bool) (a : list B) :
  length m = length a ->
  Permutation (map snd (filter fst (combine m a)) ++
               map snd (filter fst (combine (mask_not m) a))) a.
Proof.
  revert a. induction m as [|b m IH]; intros [|x a] H; simpl in *; try discriminate.
  - constructor.
  - injection H as H. destruct b; simpl.
    + constructor. apply IH. exact H.
    + apply Permutation_sym. eapply perm_trans; [|apply Permutation_middle].
      constructor. apply Permutation_sym. apply IH. exact H.
Qed.

Lemma events_select {B : Type} (labels : list Z) (a : list B) (f : bool -> bool) :
  map snd (filter fst (combine (map f (events labels)) a)) =
  map snd (filter (fun p => f (Z.eqb (fst p) 1)) (combine labels a)).
Proof.
  revert a. induction labels as [|y l IH]; intros [|x a]; simpl; try reflexivity.
  destruct (f (Z.eqb y 1)); simpl; rewrite IH; reflexivity.
Qed.

(** X8: with as many labels as signals, [train_signals[events]] is the
    signals labelled 1 and [train_signals[~events]] the others, each in
    their original order, and together they are the training signals,
    each exactly once. *)
Theorem event_noise_partition (signals : list (list A)) (labels : list Z) :
  length labels = length signals ->
  exists ev nz,
    mask_index signals (events labels) = NpOk ev /\
    mask_index signals (mask_not (events labels)) = NpOk nz /\
    ev = map snd (filter (fun p => Z.eqb (fst p) 1) (combine labels signals)) /\
    nz = map snd (filter (fun p => negb (Z.eqb (fst p) 1)) (combine labels signals)) /\
    Permutation (ev ++ nz) signals.
Proof.
  intros H. unfold mask_index, mask_not.
  assert (Hl : length (events labels) = length signals)
    by (unfold events; rewrite length_map; exact H).
  rewrite length_map, Hl, Nat.eqb_refl.
  do 2 eexists. split; [reflexivity|]. split; [reflexivity|]. split; [|split].
  - rewrite <- (map_id (events labels)) at 1. apply (events_select labels signals id).
  - apply (events_select labels signals negb).
  - apply mask_partition. exact Hl.
Qed.

Lemma mask_index_In {B : Type} (a : list B) (m : list bool) (sel : list B) (x : B) :
  mask_index a m = NpOk sel -> In x sel -> In x a.
Proof.
  unfold mask_index. destruct Nat.eqb; [|discriminate]. intros H Hin. injection H as <-.
  apply in_map_iff in Hin as [[b y] [<- Hin]]. apply filter_In in Hin as [Hin _].
  exact (in_combine_r _ _ _ _ Hin).
Qed.

Lemma length_concat_uniform (xs : list (list A)) (L : nat) :
  Forall (fun s => length s = L) xs -> length (concat xs) = length xs * L.
Proof.
  induction 1 as [|x r Hx _ IH]; simpl; [reflexivity|].
  rewrite length_app, Hx, IH. reflexivity.
Qed.

Lemma chunks_concat (xs : list (list A)) (L : nat) :
  Forall (fun s => length s = L) xs -> chunks (length xs) L (concat xs) = xs.
Proof.
  induction 1 as [|x r Hx _ IH]; simpl; [reflexivity|].
  subst L. rewrite firstn_app, skipn_app, Nat.sub_diag, firstn_all, skipn_all.
  simpl. rewrite app_nil_r. f_equal. exact IH.
Qed.

(** X9: when the mask selects at least five signals, all of one length,
    the five rows of [signals[mask][:5].reshape((5, -1))] are the first
    five selected signals, in order. *)
Theorem select_reshape_rows (signals : list (list A)) (m : list bool)
      (sel : list (list A)) (L : nat) :
  mask_index signals m = NpOk sel ->
  5 <= length sel ->
  Forall (fun s => length s = L) signals ->
  select_reshape signals m = NpOk (firstn 5 sel).
Proof.
  intros Hm H5 HL. unfold select_reshape. rewrite Hm.
  assert (Hlen : length (firstn 5 sel) = 5) by (rewrite length_firstn; lia).
  assert (Hsel : Forall (fun s => length s = L) (firstn 5 sel)).
  { apply Forall_forall. intros x Hx. rewrite Forall_forall in HL. apply HL.
    apply (mask_index_In signals m sel); [exact Hm|].
    rewrite <- (firstn_skipn 5 sel). apply in_or_app. left. exact Hx. }
  unfold reshape_5. rewrite (length_concat_uniform _ L Hsel), Hlen.
  rewrite (Nat.mul_comm 5 L), Nat.Div0.mod_mul, Nat.div_mul by lia. simpl Nat.eqb.
  pose proof (chunks_concat _ L Hsel) as Hc. rewrite Hlen in Hc. rewrite Hc. reflexivity.
Qed.

(** X10: when the mask selects one to four signals, all of a length that
    5 does not divide (1024 samples in the notebook's data), the
    [reshape((5, -1))] raises [ValueError]. *)
Theorem select_reshape_too_few (signals : list (list A)) (m : list bool)
      (sel : list (list A)) (L : nat) :
  mask_index signals m = NpOk sel ->
  1 <= length sel <= 4 ->
  Forall (fun s => length s = L) signals ->
  L mod 5 <> 0 ->
  select_reshape signals m = NpErr ValueError.
Proof.
  intros Hm Hk HL H5. unfold select_reshape. rewrite Hm.
  rewrite firstn_all2 by lia.
  assert (Hsel : Forall (fun s => length s = L) sel).
  { apply Forall_forall. intros x Hx. rewrite Forall_forall in HL. apply HL.
    exact (mask_index_In signals m sel x Hm Hx). }
  unfold reshape_5. rewrite (length_concat_uniform _ L Hsel).
  assert (Hne : Nat.eqb ((length sel * L) mod 5) 0 = false).
  { apply Nat.eqb_neq. rewrite Nat.Div0.mul_mod, (Nat.mod_small (length sel)) by lia.
    pose proof (Nat.mod_upper_bound L 5 ltac:(lia)) as Hr.
    destruct (L mod 5) as [|[|[|[|[|r]]]]]; [contradiction| | | | |lia];
      (assert (Hc : length sel = 1 \/ length sel = 2 \/ length sel = 3 \/ length sel = 4)
         by lia);
      destruct Hc as [-> | [-> | [-> | ->]]]; simpl; discriminate. }
  rewrite Hne. reflexivity.
Qed.

End Signals.

(** X8, on three two-sample signals labelled 1, 0, 1. *)
Lemma event_noise_partition_witness :
  exists ev nz,
    mask_index [[1; 2]; [3; 4]; [5; 6]]%Z (events [1; 0; 1]%Z) = NpOk ev /\
    mask_index [[1; 2]; [3; 4]; [5; 6]]%Z (mask_not (events [1; 0; 1]%Z)) = NpOk nz /\
    ev = map snd (filter (fun p => Z.eqb (fst p) 1) (combine [1; 0; 1]%Z [[1; 2]; [3; 4]; [5; 6]]%Z)) /\
    nz = map snd (filter (fun p => negb (Z.eqb (fst p) 1))
                         (combine [1; 0; 1]%Z [[1; 2]; [3; 4]; [5; 6]]%Z)) /\
    Permutation (ev ++ nz)%list [[1; 2]; [3; 4]; [5; 6]]%Z.
Proof.
  apply (event_noise_partition [[1; 2]; [3; 4]; [5; 6]]%Z [1; 0; 1]%Z). reflexivity.
Defined.

(** X9, on six one-sample signals, all events. *)
Lemma select_reshape_rows_witness :
  select_reshape [[1]; [2]; [3]; [4]; [5]; [6]]%Z (events [1; 1; 1; 1; 1; 1]%Z)
  = NpOk (firstn 5 [[1]; [2]; [3]; [4]; [5]; [6]]%Z).
Proof.
  apply (select_reshape_rows _ _ [[1]; [2]; [3]; [4]; [5]; [6]]%Z 1).
  - vm_compute. reflexivity.
  - simpl. lia.
  - repeat constructor.
Defined.

(** X10, on three 1024-sample signals, one of them an event. *)
Lemma select_reshape_too_few_witness :
  select_reshape [repeat 0%Z 1024; repeat 1%Z 1024; repeat 0%Z 1024] (events [0; 1; 0]%Z)
  = NpErr ValueError.
Proof.
  apply (select_reshape_too_few _ _ [repeat 1%Z 1024] 1024).
  - vm_compute. reflexivity.
  - simpl. lia.
  - repeat constructor; apply repeat_length.
  - vm_compute. discriminate.
Defined.

(** ** The plotting grids *)

Lemma map_add_seq (k s n : nat) : map (fun j => k + j) (seq s n) = seq (k + s) n.
Proof.
  revert s. induction n as [|n IH]; intros s; simpl; [reflexivity|].
  rewrite IH. f_equal. f_equal. lia.
Qed.

(** X11: the plotting loops [n = cols*i + j] over [range(rows)] and
    [range(cols)] visit the test examples 0 to [rows*cols - 1], each once,
    in increasing order (so subplot [1+n] runs over the whole grid). *)
Theorem grid_indices_seq (rows cols : nat) : grid_indices rows cols = seq 0 (rows * cols).
Proof.
  unfold grid_indices. induction rows as [|r IH]; [reflexivity|].
  rewrite seq_S, flat_map_app, IH. cbn [flat_map]. rewrite app_nil_r, map_add_seq.
  replace (S r * cols) with (r * cols + cols) by lia. rewrite seq_app.
  f_equal. f_equal. lia.
Qed.
